(** * boot_universe.cpp: the Sandbox and Observer classes and the driver loop

    A shallow embedding of [assets/Formulas and code/boot_universe.cpp].

    - A C++ [double] is a binary64 value: Rocq's primitive [float], with
      the IEEE comparison [>=] of the driver's guard.
    - [class Sandbox] has no data member, so an instance is a record with no
      field. Its member functions are not [const]: each one is a function
      from the instance to its result and the instance it leaves behind.
    - The two headers the file includes are not part of the sources. What
      the code takes from them (the constant [CONST_8PI_G_C4], the type
      [Bit] and its construction from an [int]) is a parameter of the
      development, as a type class per header.
    - [boot_universe] loops for as long as [isRunning()] answers [true]; it
      is an interaction tree that emits one event per member function it
      calls, the loop being the library's [ITree.iter]. The loop is read as
      it is written: nothing here relies on the licence a C++
      implementation has to assume that a loop without input or output
      ends.
    - Whether a call can leave by an exception, or end in more than one
      way, is not something the functions above can say: for that the
      operations are given a second time as a relation between a call and
      the ways it can end, one rule per way the source allows. There the
      construction [Bit(1)] is whatever the absent header makes it: it may
      return a [Bit], throw, or do either. *)

From Stdlib Require Import PrimFloat ZArith String List Lia.
From ITree Require Import ITree ITreeFacts Props.Infinite.
From Paco Require Import paco.
Import ListNotations.
Import ITreeNotations.
Local Open Scope itree_scope.
Local Open Scope string_scope.
Local Open Scope list_scope.

(** ** Values *)

(** [double]: IEEE 754 binary64. *)
Definition double : Set := float.

(** The C++ comparison [a >= b] on doubles (false when either is a NaN). *)
Definition double_ge (a b : double) : bool := PrimFloat.leb b a.

(** [<planck_units.h>] is not among the sources; the driver reads one
    constant of it, which it passes where a [double] is expected. *)
Class planck_units : Set := { CONST_8PI_G_C4 : double }.

(** [<shannon_logic.h>] is not among the sources; [writeBit] returns the
    [Bit] it builds from the [int] literal [1], written [Bit(1)]. *)
Class shannon_logic : Type := { Bit : Type; Bit_of_int : Z -> Bit }.

(** What [getRadiation] returns and [decode] receives: the string literal
    the [const char*] points to. *)
Definition Signal : Set := string.

(** ** Dimensionskonstanten der Sandbox *)

Definition SIGMA_P : double := 1.0%float.
Definition PLANCK_LIMIT : double := 1.0%float.

(** ** class Observer *)

Module Observer.

(** [static void decode(auto signal) { }]: any argument type, by value;
  the body is empty. *)
Definition decode {A : Type} (signal : A) : unit := tt.

End Observer.

(** ** class Sandbox *)

Module Sandbox.

(** No data member. *)
Record t : Set := Build { }.

Section Methods.
Context `{SL : shannon_logic}.

(** [static Sandbox initialize(double volume_geometry) { return Sandbox(); }] *)
Definition initialize (volume_geometry : double) : t := Build.

(** [void clearToZero() { }] *)
Definition clearToZero (this : t) : t := this.

(** [Bit writeBit(double quantum) { return Bit(1); }] *)
Definition writeBit (this : t) (quantum : double) : Bit * t :=
  (Bit_of_int 1, this).

(** [bool isRunning() { return true; }] *)
Definition isRunning (this : t) : bool * t := (true, this).

(** [double getDensity() { return 0.0; }] *)
Definition getDensity (this : t) : double * t := (0.0%float, this).

(** [void executeBounce() { }] *)
Definition executeBounce (this : t) : t := this.

(** [void expandEntropy() { }] *)
Definition expandEntropy (this : t) : t := this.

(** [auto getRadiation() { return "Hawking-Signal"; }] *)
Definition getRadiation (this : t) : Signal * t := ("Hawking-Signal", this).

End Methods.

End Sandbox.


(** ** Calls on an instance *)

Section Calls.
Context `{SL : shannon_logic}.

(** The member functions callable on an instance, with their arguments. *)
Inductive Method : Set :=
| m_clearToZero
| m_writeBit (quantum : double)
| m_isRunning
| m_getDensity
| m_executeBounce
| m_expandEntropy
| m_getRadiation.

(** The declared return type of each ([void] is [unit]). *)
Definition result (m : Method) : Type :=
  match m with
  | m_clearToZero => unit
  | m_writeBit _ => Bit
  | m_isRunning => bool
  | m_getDensity => double
  | m_executeBounce => unit
  | m_expandEntropy => unit
  | m_getRadiation => Signal
  end.

(** [this.m(...)]: what the call returns and the instance after it. *)
Definition invoke (m : Method) (this : Sandbox.t) : result m * Sandbox.t :=
  match m with
  | m_clearToZero => (tt, Sandbox.clearToZero this)
  | m_writeBit quantum => Sandbox.writeBit this quantum
  | m_isRunning => Sandbox.isRunning this
  | m_getDensity => Sandbox.getDensity this
  | m_executeBounce => (tt, Sandbox.executeBounce this)
  | m_expandEntropy => (tt, Sandbox.expandEntropy this)
  | m_getRadiation => Sandbox.getRadiation this
  end.

(** A sequence of calls on one instance, results dropped. *)
Definition invoke_all (ms : list Method) (this : Sandbox.t) : Sandbox.t :=
  fold_left (fun this m => snd (invoke m this)) ms this.

(** What the three getters answer on an instance. *)
Definition observations (this : Sandbox.t) : double * bool * Signal :=
  (fst (Sandbox.getDensity this),
   fst (Sandbox.isRunning this),
   fst (Sandbox.getRadiation this)).

(** ** The driver *)

(** What an outside observer of the driver sees: each call it makes, with
    the arguments passed and the value returned. *)
Inductive Event : Type :=
| ev_initialize (volume_geometry : double)
| ev_method (m : Method) (r : result m)
| ev_decode (signal : Signal).

Variant callE : Type -> Type :=
| Called (e : Event) : callE unit.

(** [Sandbox::initialize(x)], observed. *)
Definition call_initialize (volume_geometry : double) : itree callE Sandbox.t :=
  let universe := Sandbox.initialize volume_geometry in
  ITree.trigger (Called (ev_initialize volume_geometry)) ;;
  Ret universe.

(** [this.m(...)], observed. *)
Definition call (m : Method) (this : Sandbox.t) : itree callE (result m * Sandbox.t) :=
  let r := invoke m this in
  ITree.trigger (Called (ev_method m (fst r))) ;;
  Ret r.

(** [Observer::decode(signal)], observed. *)
Definition call_decode (signal : Signal) : itree callE unit :=
  let r := Observer.decode signal in
  ITree.trigger (Called (ev_decode signal)) ;;
  Ret r.

(** The body of the [while]: lines 80 to 88. *)
Definition breathe (universe : Sandbox.t) : itree callE Sandbox.t :=
  '(density, universe) <- call m_getDensity universe ;;
  '(_, universe) <- (if double_ge density PLANCK_LIMIT
                     then call m_executeBounce universe
                     else call m_expandEntropy universe) ;;
  '(radiation, universe) <- call m_getRadiation universe ;;
  call_decode radiation ;;
  Ret universe.

(** One turn of [while (universe.isRunning()) { ... }]: [inl] to go round
    again, [inr] when the condition is false and the loop is left. *)
Definition cycle_step (universe : Sandbox.t) : itree callE (Sandbox.t + unit) :=
  '(running, universe) <- call m_isRunning universe ;;
  if running : bool
  then universe <- breathe universe ;; Ret (inl universe)
  else Ret (inr tt).

(** The [while] loop of the driver. *)
Definition thermal_cycle (universe : Sandbox.t) : itree callE unit :=
  ITree.iter cycle_step universe.

End Calls.

Section Driver.
Context `{PU : planck_units} `{SL : shannon_logic}.

(** [void boot_universe()] *)
Definition boot_universe : itree callE unit :=
  universe <- call_initialize CONST_8PI_G_C4 ;;
  '(_, universe) <- call m_clearToZero universe ;;
  '(first_action, universe) <- call (m_writeBit SIGMA_P) universe ;;
  thermal_cycle universe.

End Driver.


(** ** Observing a run *)

Section Observing.
Context `{SL : shannon_logic}.

(** The tree that makes the calls [evs], in order, and returns. *)
Fixpoint emit (evs : list Event) : itree callE unit :=
  match evs with
  | [] => Ret tt
  | ev :: evs' => ITree.trigger (Called ev) ;; emit evs'
  end.

(** The calls a run of [t] makes in its first [steps] steps, a step being
    a call or one silent step (the jump back to the loop's condition). *)
Fixpoint events_within {R : Type} (steps : nat) (t : itree callE R) : list Event :=
  match steps with
  | O => []
  | S steps' =>
      match observe t with
      | RetF _ => []
      | TauF t' => events_within steps' t'
      | VisF e k =>
          match e in callE X return (X -> itree callE R) -> list Event with
          | Called ev => fun k => ev :: events_within steps' (k tt)
          end k
      end
  end.

End Observing.

(** The calls made before the loop is entered (lines 68 to 76), and the
    calls of one turn of the loop that takes the [else] branch. *)
Definition start_events `{PU : planck_units} `{SL : shannon_logic} : list Event :=
  [ev_initialize CONST_8PI_G_C4;
   ev_method m_clearToZero tt;
   ev_method (m_writeBit SIGMA_P) (Bit_of_int 1)].

Definition turn_events `{SL : shannon_logic} : list Event :=
  [ev_method m_isRunning true;
   ev_method m_getDensity 0.0%float;
   ev_method m_expandEntropy tt;
   ev_method m_getRadiation "Hawking-Signal";
   ev_decode "Hawking-Signal"].

(** An instance of [<shannon_logic.h>] to run the model on: a [Bit] is a
    [bool], built from an [int] as C++ converts one (non-zero is [true]). *)
Definition bool_shannon_logic : shannon_logic :=
  {| Bit := bool; Bit_of_int := fun n => negb (Z.eqb n 0) |}.

(** An instance of [<planck_units.h>] to run the model on: the value of
    8 pi G / c^4 in SI units, the binary64 value nearest to 2.0766e-43. No
    property depends on it. *)
Definition SI_planck_units : planck_units :=
  {| CONST_8PI_G_C4 := 0x1.2861db8540d79p-142%float |}.

(** ** How a call ends *)

(** A call returns a value or leaves by an exception. *)
Inductive outcome (A : Type) : Type :=
| Returned (a : A)
| Raised.

Arguments Returned {A} a.
Arguments Raised {A}.

Section Ends.
Context `{SL : shannon_logic}.

(** The ways the construction [Bit(n)] can end. The class [Bit] is declared
    in a header that is not among the sources, so nothing is fixed here:
    its constructor may return, throw, or have several ways to end. *)
Variable Bit_ctor : Z -> outcome Bit -> Prop.

(** The nine operations of the two classes, with their arguments. *)
Inductive Operation : Set :=
| op_initialize (volume_geometry : double)
| op_method (m : Method)
| op_decode (signal : Signal).

(** What an operation hands back: nothing, an instance, or a value of one
    of the four other return types. *)
Inductive Value : Type :=
| v_void
| v_Sandbox (instance : Sandbox.t)
| v_Bit (b : Bit)
| v_bool (b : bool)
| v_double (d : double)
| v_Signal (s : Signal).

(** [ends op this o]: called while the caller's instance is [this], the
    operation [op] can end with [o], which is the value returned and the
    instance afterwards, or an exception. One rule per way through the
    body: every body is a single [return] or empty, and the only thing any
    of them evaluates that is not a literal is [Bit(1)] in [writeBit]. The
    two static functions have no instance of their own and leave the
    caller's as it is. *)
Inductive ends : Operation -> Sandbox.t -> outcome (Value * Sandbox.t) -> Prop :=
| ends_initialize (volume_geometry : double) (this : Sandbox.t) :
    ends (op_initialize volume_geometry) this
         (Returned (v_Sandbox Sandbox.Build, this))
| ends_clearToZero (this : Sandbox.t) :
    ends (op_method m_clearToZero) this (Returned (v_void, this))
| ends_writeBit (quantum : double) (this : Sandbox.t) (b : Bit) :
    Bit_ctor 1 (Returned b) ->
    ends (op_method (m_writeBit quantum)) this (Returned (v_Bit b, this))
| ends_writeBit_Raised (quantum : double) (this : Sandbox.t) :
    Bit_ctor 1 Raised ->
    ends (op_method (m_writeBit quantum)) this Raised
| ends_isRunning (this : Sandbox.t) :
    ends (op_method m_isRunning) this (Returned (v_bool true, this))
| ends_getDensity (this : Sandbox.t) :
    ends (op_method m_getDensity) this (Returned (v_double 0.0%float, this))
| ends_executeBounce (this : Sandbox.t) :
    ends (op_method m_executeBounce) this (Returned (v_void, this))
| ends_expandEntropy (this : Sandbox.t) :
    ends (op_method m_expandEntropy) this (Returned (v_void, this))
| ends_getRadiation (this : Sandbox.t) :
    ends (op_method m_getRadiation) this
         (Returned (v_Signal "Hawking-Signal", this))
| ends_decode (signal : Signal) (this : Sandbox.t) :
    ends (op_decode signal) this (Returned (v_void, this)).

(** The result of a member function, as a [Value]. *)
Definition value_of (m : Method) : result m -> Value :=
  match m with
  | m_clearToZero => fun _ => v_void
  | m_writeBit _ => v_Bit
  | m_isRunning => v_bool
  | m_getDensity => v_double
  | m_executeBounce => fun _ => v_void
  | m_expandEntropy => fun _ => v_void
  | m_getRadiation => v_Signal
  end.

End Ends.


(** Both sides start with the same call: compare what follows it. *)
Ltac same_call := apply eqit_Vis; intros [].

(** * Properties *)

Section Proofs.
Context `{PU : planck_units} `{SL : shannon_logic}.

(** ** The class: no call changes the instance *)

Lemma invoke_frame (m : Method) (this : Sandbox.t) : snd (invoke m this) = this.
Proof. destruct m; reflexivity. Qed.

Lemma invoke_all_frame (ms : list Method) (this : Sandbox.t) :
  invoke_all ms this = this.
Proof.
  revert this. induction ms as [|m ms IH]; intros this; cbn.
  - reflexivity.
  - rewrite invoke_frame. apply IH.
Qed.

(** ** The driver as a sequence of calls *)

Lemma bind_call (m : Method) (this : Sandbox.t) {R : Type}
    (k : result m * Sandbox.t -> itree callE R) :
  ITree.bind (call m this) k
  ≅ Vis (Called (ev_method m (fst (invoke m this)))) (fun _ => k (invoke m this)).
Proof.
  unfold call. rewrite bind_bind, bind_trigger.
  apply eqit_Vis. intros []. rewrite bind_ret_l. reflexivity.
Qed.

Lemma bind_call_decode (signal : Signal) {R : Type} (k : unit -> itree callE R) :
  ITree.bind (call_decode signal) k
  ≅ Vis (Called (ev_decode signal)) (fun _ => k tt).
Proof.
  unfold call_decode. rewrite bind_bind, bind_trigger.
  apply eqit_Vis. intros []. rewrite bind_ret_l. reflexivity.
Qed.

Lemma bind_emit_cons (ev : Event) (evs : list Event) {R : Type}
    (k : unit -> itree callE R) :
  ITree.bind (emit (ev :: evs)) k
  ≅ Vis (Called ev) (fun _ => ITree.bind (emit evs) k).
Proof.
  cbn. rewrite bind_bind, bind_trigger. reflexivity.
Qed.

Lemma bind_emit_nil {R : Type} (k : unit -> itree callE R) :
  ITree.bind (emit []) k ≅ k tt.
Proof. cbn. rewrite bind_ret_l. reflexivity. Qed.

Lemma emit_app (evs1 evs2 : list Event) :
  emit (evs1 ++ evs2) ≅ emit evs1 ;; emit evs2.
Proof.
  induction evs1 as [|ev evs1 IH].
  - rewrite bind_emit_nil. reflexivity.
  - rewrite bind_emit_cons. cbn [app emit]. rewrite bind_trigger.
    apply eqit_Vis. intros []. exact IH.
Qed.


(** The loop body takes the [else] branch. *)
Lemma breathe_expands (universe : Sandbox.t) :
  breathe universe ≅ emit (tl turn_events) ;; Ret universe.
Proof.
  unfold breathe, turn_events, tl.
  rewrite bind_call, bind_emit_cons. same_call.
  cbn [invoke Sandbox.getDensity].
  change (double_ge 0%float PLANCK_LIMIT) with false. cbv iota.
  rewrite (bind_call m_expandEntropy universe), bind_emit_cons. same_call.
  cbn [invoke Sandbox.expandEntropy].
  rewrite bind_call, bind_emit_cons. same_call.
  cbn [invoke Sandbox.getRadiation].
  rewrite bind_call_decode, bind_emit_cons. same_call.
  rewrite bind_emit_nil. reflexivity.
Qed.

(** The condition holds, the body runs, and the loop goes round again. *)
Lemma cycle_step_again (universe : Sandbox.t) :
  cycle_step universe ≅ emit turn_events ;; Ret (inl universe).
Proof.
  unfold cycle_step, turn_events. rewrite bind_call, bind_emit_cons. same_call.
  cbn [invoke Sandbox.isRunning].
  rewrite breathe_expands, !bind_bind.
  apply eq_itree_clo_bind with (UU := eq); [reflexivity | intros [] [] _].
  rewrite !bind_ret_l. reflexivity.
Qed.

Lemma thermal_cycle_turn (universe : Sandbox.t) :
  thermal_cycle universe ≈ emit turn_events ;; thermal_cycle universe.
Proof.
  unfold thermal_cycle. rewrite unfold_iter at 1.
  rewrite cycle_step_again, bind_bind.
  apply eutt_eq_bind. intros [].
  rewrite bind_ret_l, tau_eutt. reflexivity.
Qed.

Lemma boot_universe_start :
  boot_universe
  ≅ emit start_events ;; thermal_cycle (Sandbox.initialize CONST_8PI_G_C4).
Proof.
  unfold boot_universe, call_initialize, start_events.
  rewrite bind_bind, bind_trigger, bind_emit_cons. same_call.
  rewrite bind_ret_l.
  rewrite bind_call, bind_emit_cons. same_call.
  cbn [invoke Sandbox.clearToZero].
  rewrite bind_call, bind_emit_cons. same_call.
  cbn [invoke Sandbox.writeBit fst].
  rewrite bind_emit_nil. reflexivity.
Qed.

(** ** The loop is never left *)

Lemma thermal_cycle_infinite (universe : Sandbox.t) :
  all_infinite (thermal_cycle universe).
Proof.
  revert universe. pcofix CIH. intros universe.
  pfold. unfold all_infinite_. cbn.
  do 5 (constructor; intros []; left; pfold; cbn).
  constructor. right. apply CIH.
Qed.

Lemma all_infinite_Vis {R X : Type} (e : callE X) (k : X -> itree callE R) :
  (forall x, all_infinite (k x)) -> all_infinite (Vis e k).
Proof.
  intros H. pfold. unfold all_infinite_. cbn.
  constructor. intros x. left. apply H.
Qed.

Lemma boot_universe_infinite : all_infinite boot_universe.
Proof.
  rewrite boot_universe_start. unfold start_events.
  do 3 (rewrite bind_emit_cons; apply all_infinite_Vis; intros []).
  rewrite bind_emit_nil. apply thermal_cycle_infinite.
Qed.

(** ** The calls of a run, counted in steps *)

Lemma events_within_prefix {R : Type} (n m : nat) (t : itree callE R) :
  exists evs, events_within (n + m) t = events_within n t ++ evs.
Proof.
  revert t. induction n as [|n IH]; intros t; cbn.
  - eexists. reflexivity.
  - destruct (observe t) as [r | t' | X e k].
    + exists []. reflexivity.
    + apply IH.
    + destruct e as [ev]. destruct (IH (k tt)) as [evs Hevs].
      exists evs. rewrite Hevs. reflexivity.
Qed.

Lemma events_within_eq_itree {R : Type} (n : nat) {t1 t2 : itree callE R} :
  t1 ≅ t2 -> events_within n t1 = events_within n t2.
Proof.
  revert t1 t2. induction n as [|n IH]; intros t1 t2 Heq; cbn.
  - reflexivity.
  - punfold Heq. red in Heq.
    genobs t1 ot1. genobs t2 ot2.
    destruct Heq as [r1 r2 Hr | u1 u2 Hu | X e k1 k2 Hk | |]; try discriminate.
    + reflexivity.
    + apply IH. pclearbot. exact Hu.
    + destruct e as [ev]. f_equal. apply IH.
      specialize (Hk tt). pclearbot. exact Hk.
Qed.

Lemma events_within_emit {R : Type} (evs : list Event) (k : nat)
    (t : itree callE R) :
  events_within (length evs + k) (emit evs ;; t) = evs ++ events_within k t.
Proof.
  induction evs as [|ev evs IH].
  - apply events_within_eq_itree. apply bind_emit_nil.
  - rewrite (events_within_eq_itree _ (bind_emit_cons ev evs (fun _ => t))).
    cbn [length plus events_within observe _observe app]. f_equal. exact IH.
Qed.

Lemma events_within_turn (k : nat) (universe : Sandbox.t) :
  events_within (6 + k) (thermal_cycle universe)
  = turn_events ++ events_within k (thermal_cycle universe).
Proof. reflexivity. Qed.

Lemma events_within_turns (n k : nat) (universe : Sandbox.t) :
  events_within (6 * n + k) (thermal_cycle universe)
  = concat (repeat turn_events n) ++ events_within k (thermal_cycle universe).
Proof.
  induction n as [|n IH].
  - reflexivity.
  - replace (6 * S n + k) with (6 + (6 * n + k)) by lia.
    rewrite events_within_turn, IH. cbn [repeat concat].
    rewrite <- app_assoc. reflexivity.
Qed.

Lemma events_within_boot_universe (n : nat) :
  events_within (3 + 6 * n) boot_universe
  = start_events ++ concat (repeat turn_events n).
Proof.
  rewrite (events_within_eq_itree _ boot_universe_start).
  change (3 + 6 * n) with (length start_events + 6 * n).
  rewrite events_within_emit.
  replace (6 * n) with (6 * n + 0) by lia.
  rewrite events_within_turns. cbn [events_within].
  rewrite app_nil_r. reflexivity.
Qed.

Lemma executeBounce_not_called (steps : nat) :
  ~ In (ev_method m_executeBounce tt) (events_within steps boot_universe).
Proof.
  intros Hin.
  destruct (events_within_prefix steps (3 + 5 * steps) boot_universe) as [evs Hevs].
  replace (steps + (3 + 5 * steps)) with (3 + 6 * steps) in Hevs by lia.
  assert (Hall : In (ev_method m_executeBounce tt)
                   (start_events ++ concat (repeat turn_events steps))).
  { rewrite <- events_within_boot_universe, Hevs. apply in_or_app. now left. }
  apply in_app_or in Hall. destruct Hall as [Hstart | Hturns].
  - cbn in Hstart. intuition discriminate.
  - apply in_concat in Hturns. destruct Hturns as [evs' [Hrep Hin']].
    apply repeat_spec in Hrep. subst evs'.
    cbn in Hin'. intuition discriminate.
Qed.

(** ** The claims *)

(** C1. [isRunning()] answers [true] on every instance reachable from
    [initialize] by any sequence of calls. So a turn of the driver's loop
    always ends by going round again, and neither the loop nor
    [boot_universe] ever returns. *)
Theorem isRunning_true_loop_never_exits :
  (forall (x : double) (ms : list Method),
      fst (Sandbox.isRunning (invoke_all ms (Sandbox.initialize x))) = true) /\
  (forall universe : Sandbox.t,
      cycle_step universe ≅ emit turn_events ;; Ret (inl universe)) /\
  (forall universe : Sandbox.t, all_infinite (thermal_cycle universe)) /\
  all_infinite boot_universe.
Proof.
  split; [| split; [| split]].
  - intros x ms. reflexivity.
  - exact cycle_step_again.
  - exact thermal_cycle_infinite.
  - exact boot_universe_infinite.
Qed.

(** C2. The guard [getDensity() >= PLANCK_LIMIT] is false on every
    reachable instance; the calls of [boot_universe] are the three before
    the loop followed by turn after turn through [expandEntropy] (a turn is
    six steps: five calls and the jump back), and [executeBounce] is not
    among the calls of any run, however long. *)
Theorem guard_false_only_expandEntropy :
  (forall (x : double) (ms : list Method),
      double_ge (fst (Sandbox.getDensity (invoke_all ms (Sandbox.initialize x))))
                PLANCK_LIMIT = false) /\
  (forall n : nat,
      events_within (3 + 6 * n) boot_universe
      = start_events ++ concat (repeat turn_events n)) /\
  (forall steps : nat,
      ~ In (ev_method m_executeBounce tt) (events_within steps boot_universe)).
Proof.
  split; [| split].
  - intros x ms. reflexivity.
  - exact events_within_boot_universe.
  - exact executeBounce_not_called.
Qed.

(** C3. [getDensity()] returns [0.0] on a fresh instance, after any number
    of [writeBit] calls, and after any sequence of calls whatever; it
    leaves the instance as it was. *)
Theorem getDensity_always_zero :
  (forall x : double, fst (Sandbox.getDensity (Sandbox.initialize x)) = 0.0%float) /\
  (forall (x : double) (qs : list double),
      let this := invoke_all (List.map m_writeBit qs) (Sandbox.initialize x) in
      fst (Sandbox.getDensity this) = 0.0%float) /\
  (forall (x : double) (ms : list Method),
      let this := invoke_all ms (Sandbox.initialize x) in
      Sandbox.getDensity this = (0.0%float, this)).
Proof.
  split; [| split].
  - intros x. reflexivity.
  - intros x qs this. reflexivity.
  - intros x ms this. reflexivity.
Qed.

(** C4. [getRadiation()] returns ["Hawking-Signal"] on every reachable
    instance and leaves the instance as it was; [decode] returns for an
    argument of any type, and called on that label all there is to observe
    is the call itself, with the label as received. *)
Theorem getRadiation_label_through_decode :
  (forall (x : double) (ms : list Method),
      let this := invoke_all ms (Sandbox.initialize x) in
      Sandbox.getRadiation this = ("Hawking-Signal", this)) /\
  (forall (A : Type) (signal : A), Observer.decode signal = tt) /\
  (forall this : Sandbox.t,
      call_decode (fst (Sandbox.getRadiation this))
      ≅ emit [ev_decode "Hawking-Signal"]).
Proof.
  split; [| split].
  - intros x ms this. unfold this. rewrite invoke_all_frame. reflexivity.
  - intros A signal. reflexivity.
  - intros this. unfold call_decode. cbn [emit Sandbox.getRadiation fst].
    reflexivity.
Qed.

(** C5. The first eight calls of [boot_universe] are [initialize] with
    [CONST_8PI_G_C4], [clearToZero], [writeBit(1.0)] and one turn of the
    loop: [isRunning] (true), [getDensity] (0.0), [expandEntropy],
    [getRadiation] ("Hawking-Signal") and [decode] of that label; after
    them the run is at the loop again. *)
Theorem boot_universe_first_turn :
  events_within 8 boot_universe
  = [ev_initialize CONST_8PI_G_C4;
     ev_method m_clearToZero tt;
     ev_method (m_writeBit 1.0%float) (Bit_of_int 1);
     ev_method m_isRunning true;
     ev_method m_getDensity 0.0%float;
     ev_method m_expandEntropy tt;
     ev_method m_getRadiation "Hawking-Signal";
     ev_decode "Hawking-Signal"] /\
  boot_universe
  ≈ emit [ev_initialize CONST_8PI_G_C4;
          ev_method m_clearToZero tt;
          ev_method (m_writeBit 1.0%float) (Bit_of_int 1);
          ev_method m_isRunning true;
          ev_method m_getDensity 0.0%float;
          ev_method m_expandEntropy tt;
          ev_method m_getRadiation "Hawking-Signal";
          ev_decode "Hawking-Signal"] ;;
    thermal_cycle (Sandbox.initialize CONST_8PI_G_C4).
Proof.
  split.
  - reflexivity.
  - change (boot_universe
            ≈ emit (start_events ++ turn_events) ;;
              thermal_cycle (Sandbox.initialize CONST_8PI_G_C4)).
    rewrite emit_app, bind_bind, boot_universe_start.
    apply eutt_eq_bind. intros []. apply thermal_cycle_turn.
Qed.

(** C6. [writeBit(q)] returns [Bit(1)] for every [q], on a fresh instance
    and after any sequence of calls, and leaves the instance as it was; any
    two calls of it return the same [Bit]. *)
Theorem writeBit_fixed_bit :
  (forall (x : double) (ms : list Method) (q : double),
      let this := invoke_all ms (Sandbox.initialize x) in
      Sandbox.writeBit this q = (Bit_of_int 1, this)) /\
  (forall (this1 this2 : Sandbox.t) (q1 q2 : double),
      fst (Sandbox.writeBit this1 q1) = fst (Sandbox.writeBit this2 q2)).
Proof.
  split.
  - intros x ms q this. reflexivity.
  - intros this1 this2 q1 q2. reflexivity.
Qed.

(** C7. [initialize] returns for every [double] and its argument makes no
    difference: the two instances are equal, and so is the answer of any
    call made after the same calls on each. *)
Theorem initialize_ignores_argument (x y : double) :
  Sandbox.initialize x = Sandbox.initialize y /\
  (forall (ms : list Method) (m : Method),
      invoke m (invoke_all ms (Sandbox.initialize x))
      = invoke m (invoke_all ms (Sandbox.initialize y))).
Proof. split; reflexivity. Qed.

(** C9. No member function changes the instance, and after any sequence
    of calls the three getters answer what they answer on a fresh
    instance: [0.0], [true] and ["Hawking-Signal"]. *)
Theorem sandbox_state_unchanged :
  (forall (m : Method) (this : Sandbox.t), snd (invoke m this) = this) /\
  (forall (x : double) (ms : list Method),
      invoke_all ms (Sandbox.initialize x) = Sandbox.initialize x /\
      observations (invoke_all ms (Sandbox.initialize x))
      = observations (Sandbox.initialize x) /\
      observations (Sandbox.initialize x)
      = (0.0%float, true, "Hawking-Signal")).
Proof.
  split.
  - exact invoke_frame.
  - intros x ms. rewrite invoke_all_frame. repeat split.
Qed.

End Proofs.

(** * The driver's behaviour as a whole *)

Section Behaviour.
Context `{PU : planck_units} `{SL : shannon_logic}.

Lemma thermal_cycle_forever (universe : Sandbox.t) :
  thermal_cycle universe ≈ ITree.forever (emit turn_events).
Proof.
  revert universe. einit. ecofix CIH. intros universe.
  unfold thermal_cycle. rewrite unfold_iter, unfold_forever.
  rewrite cycle_step_again, bind_bind.
  ebind. econstructor; [reflexivity |].
  intros [] [] _. rewrite bind_ret_l. etau.
Qed.

(** Every run, cut after any number of steps, has made calls that start
    the sequence: the start calls, then turns. *)
Lemma events_within_of_turns (steps : nat) :
  exists evs,
    events_within steps boot_universe ++ evs
    = start_events ++ concat (repeat turn_events steps).
Proof.
  destruct (events_within_prefix steps (3 + 5 * steps) boot_universe) as [evs Hevs].
  replace (steps + (3 + 5 * steps)) with (3 + 6 * steps) in Hevs by lia.
  exists evs. rewrite <- Hevs. apply events_within_boot_universe.
Qed.

Lemma length_turns (n : nat) : length (concat (repeat turn_events n)) = 5 * n.
Proof.
  induction n as [|n IH].
  - reflexivity.
  - cbn [repeat concat]. rewrite length_app, IH. cbn [turn_events length]. lia.
Qed.

Lemma Forall_turns (n : nat) :
  Forall (fun e => In e turn_events) (concat (repeat turn_events n)).
Proof.
  apply Forall_forall. intros e Hin.
  apply in_concat in Hin. destruct Hin as [evs [Hrep Hin]].
  apply repeat_spec in Hrep. subst evs. exact Hin.
Qed.

(** In a sequence of turns, what stands before a [decode] is the
    [getRadiation] of the same turn, and the label is what it returned. *)
Lemma decode_in_turns (n : nat) (evs1 evs2 : list Event) (signal : Signal) :
  concat (repeat turn_events n) = evs1 ++ ev_decode signal :: evs2 ->
  signal = "Hawking-Signal" /\
  exists evs0, evs1 = evs0 ++ [ev_method m_getRadiation "Hawking-Signal"].
Proof.
  revert evs1. induction n as [|n IH]; intros evs1 Heq.
  - destruct evs1; discriminate Heq.
  - cbn [repeat concat] in Heq. unfold turn_events at 1 in Heq.
    destruct evs1 as [|e1 [|e2 [|e3 [|e4 [|e5 evs1]]]]];
      cbn [app] in Heq; try discriminate Heq.
    + injection Heq as <- <- <- <- Hsig _.
      split; [congruence |].
      exists [ev_method m_isRunning true; ev_method m_getDensity 0.0%float;
              ev_method m_expandEntropy tt].
      reflexivity.
    + injection Heq as <- <- <- <- <- Hrest.
      destruct (IH evs1 Hrest) as [Hsig [evs0 ->]].
      split; [exact Hsig |].
      eexists (_ :: _ :: _ :: _ :: _ :: evs0). reflexivity.
Qed.

(** X1. The driver does what the three start calls followed by the five
    calls of a turn, repeated for ever, do: the two are weakly bisimilar. *)
Theorem boot_universe_forever :
  boot_universe ≈ emit start_events ;; ITree.forever (emit turn_events).
Proof.
  rewrite boot_universe_start.
  apply eutt_eq_bind. intros []. apply thermal_cycle_forever.
Qed.

(** X2. The run never falls silent: after the three start calls and [n]
    turns of six steps, it has made three calls and five more per turn. *)
Theorem boot_universe_keeps_calling (n : nat) :
  length (events_within (3 + 6 * n) boot_universe) = 3 + 5 * n.
Proof.
  rewrite events_within_boot_universe, length_app, length_turns.
  reflexivity.
Qed.

(** X3. Whenever a run has called [decode], the call just before it was
    [getRadiation], and [decode] was given the label it returned. *)
Theorem decode_follows_getRadiation
    (steps : nat) (evs1 evs2 : list Event) (signal : Signal) :
  events_within steps boot_universe = evs1 ++ ev_decode signal :: evs2 ->
  signal = "Hawking-Signal" /\
  exists evs0, evs1 = evs0 ++ [ev_method m_getRadiation "Hawking-Signal"].
Proof.
  intros Hrun.
  destruct (events_within_of_turns steps) as [evs Hevs].
  rewrite Hrun, <- app_assoc in Hevs. cbn [app] in Hevs.
  unfold start_events in Hevs.
  destruct evs1 as [|e1 [|e2 [|e3 evs1]]];
    cbn [app] in Hevs; try discriminate Hevs.
  injection Hevs as -> -> -> Hturns. symmetry in Hturns.
  destruct (decode_in_turns _ _ _ _ Hturns) as [Hsig [evs0 ->]].
  split; [exact Hsig |].
  eexists (_ :: _ :: _ :: evs0). reflexivity.
Qed.

(** X4. After its first three calls a run makes only the calls of a turn:
    [initialize], [clearToZero] and [writeBit] are not called again. *)
Theorem loop_makes_turn_calls_only (steps : nat) :
  Forall (fun e => In e turn_events)
         (skipn 3 (events_within steps boot_universe)).
Proof.
  destruct (events_within_of_turns steps) as [evs Hevs].
  apply (f_equal (skipn 3)) in Hevs.
  rewrite skipn_app in Hevs. cbn [start_events app skipn] in Hevs.
  pose proof (Forall_turns steps) as Hall.
  rewrite <- Hevs in Hall. apply Forall_app in Hall. apply Hall.
Qed.

End Behaviour.

(** X5. The constant [CONST_8PI_G_C4] shows in the argument of the first
    call and nowhere else: whatever its value, the calls that follow are
    the same. *)
Theorem boot_universe_constant_only_passed
    (PU1 PU2 : planck_units) `{SL : shannon_logic} (steps : nat) :
  tl (events_within steps (@boot_universe PU1 SL))
  = tl (events_within steps (@boot_universe PU2 SL)).
Proof.
  rewrite (events_within_eq_itree steps (@boot_universe_start PU1 SL)).
  rewrite (events_within_eq_itree steps (@boot_universe_start PU2 SL)).
  unfold start_events.
  rewrite (events_within_eq_itree steps (bind_emit_cons _ _ _)).
  rewrite (events_within_eq_itree steps
             (bind_emit_cons (ev_initialize (@CONST_8PI_G_C4 PU2)) _ _)).
  destruct steps as [|steps]; reflexivity.
Qed.

(** [decode_follows_getRadiation] on the first eight steps of a run, with
    the SI value of the constant and [bool] for [Bit]. *)
Lemma decode_follows_getRadiation_witness :
  "Hawking-Signal" = "Hawking-Signal" /\
  exists evs0 : list (@Event bool_shannon_logic),
    [ev_initialize (@CONST_8PI_G_C4 SI_planck_units);
     ev_method m_clearToZero tt;
     ev_method (m_writeBit SIGMA_P) (@Bit_of_int bool_shannon_logic 1);
     ev_method m_isRunning true;
     ev_method m_getDensity 0.0%float;
     ev_method m_expandEntropy tt;
     ev_method m_getRadiation "Hawking-Signal"]
    = evs0 ++ [ev_method m_getRadiation "Hawking-Signal"].
Proof.
  apply (@decode_follows_getRadiation SI_planck_units bool_shannon_logic
           8 _ [] "Hawking-Signal").
  reflexivity.
Defined.

(** * How the operations end *)

Section EndsProofs.
Context `{SL : shannon_logic}.
Variable Bit_ctor : Z -> outcome Bit -> Prop.


(** When [Bit(n)] does what [Bit_of_int] says, the relation and the
    functions of the class describe the same calls. *)
Lemma ends_invoke (m : Method) (this : Sandbox.t) (o : outcome (Value * Sandbox.t)) :
  (forall n o', Bit_ctor n o' <-> o' = Returned (Bit_of_int n)) ->
  ends Bit_ctor (op_method m) this o
  <-> o = Returned (value_of m (fst (invoke m this)), snd (invoke m this)).
Proof.
  intros Hctor. split.
  - intros Hends. inversion Hends; subst; try reflexivity.
    + match goal with
      | H : Bit_ctor 1 _ |- _ => apply Hctor in H; injection H as ->
      end.
      reflexivity.
    + match goal with
      | H : Bit_ctor 1 _ |- _ => apply Hctor in H; discriminate H
      end.
  - intros ->. destruct m; cbn; constructor. apply Hctor. reflexivity.
Qed.



End EndsProofs.


